(** * intervaltree.interval: the [Interval] value type

    A shallow embedding of [src/intervaltree/interval.py].  An [Interval] is
    the named tuple (begin, end, data) read as the half-open range
    [begin, end).  End points are Python integers, modelled as [Z]; payloads
    are Python values built from [None], integers, strings and lists.  The
    argument of a one-argument method is a plain point or an Interval.

    Python raises exceptions; here a call returns a [result]: either [Ok v] or
    [Raise e], and [try ... except] is the combinator [try_except].

    The built-ins the class calls are modelled beside it: comparison of
    payloads and of tuples, [type(v).__name__], [str] and [repr], and, for the
    round trip of [__repr__], the evaluation of the expressions [repr]
    produces.  [hash] is a parameter of [__hash__]. *)

From Stdlib Require Import ZArith List Bool Ascii String Lia ZifyBool.
From Stdlib Require Import DecimalString DecimalZ DecimalFacts.
Import ListNotations.

Open Scope string_scope.
Open Scope Z_scope.

(** ** Exceptions and the error monad *)

Inductive exn : Type :=
| AttributeError
| TypeError
| ValueError.

Inductive result (A : Type) : Type :=
| Ok (a : A)
| Raise (e : exn).

Arguments Ok {A} a.
Arguments Raise {A} e.

Definition bind {A B : Type} (m : result A) (k : A -> result B) : result B :=
  match m with
  | Ok a => k a
  | Raise e => Raise e
  end.

Notation "x <- m ;; k" := (bind m (fun x => k))
  (at level 61, m at next level, right associativity).

(** [try: body except: handler] (a bare [except] catches everything). *)
Definition try_except {A : Type} (body : result A) (handler : result A) : result A :=
  match body with
  | Ok a => Ok a
  | Raise _ => handler
  end.

(** [try: body except TypeError: handler] lets every other exception through. *)
Definition try_except_TypeError {A : Type} (body : result A) (handler : result A)
  : result A :=
  match body with
  | Raise TypeError => handler
  | r => r
  end.

Definition raises {A : Type} (m : result A) : Prop := exists e, m = Raise e.

(** ** Payload values *)

#[warnings="-register-all"]
Inductive pyval : Type :=
| PyNone
| PyInt (z : Z)
| PyStr (s : string)
| PyList (l : list pyval).

(** Induction on payload values, with the items of a list covered. *)
Section PyvalInduction.

Variable P : pyval -> Prop.
Hypothesis HNone : P PyNone.
Hypothesis HInt : forall z, P (PyInt z).
Hypothesis HStr : forall s, P (PyStr s).
Hypothesis HList : forall l, Forall P l -> P (PyList l).

Fixpoint pyval_nested_ind (v : pyval) : P v :=
  match v with
  | PyNone => HNone
  | PyInt z => HInt z
  | PyStr s => HStr s
  | PyList l =>
      HList l
        ((fix all (l : list pyval) : Forall P l :=
            match l with
            | [] => Forall_nil P
            | x :: l' => Forall_cons x (pyval_nested_ind x) (all l')
            end) l)
  end.

End PyvalInduction.

(** ** The record *)

Record Interval : Type := mkInterval {
  begin : Z;
  end_ : Z;
  data : pyval
}.

(** [Interval.__new__(cls, begin, end, data=None)]. *)
Definition Interval_new (b e : Z) (d : option pyval) : Interval :=
  mkInterval b e (match d with Some v => v | None => PyNone end).

(** What a caller may hand to the one-argument methods: a plain point, which
    has no attributes, or an Interval. *)
Inductive operand : Type :=
| Point (p : Z)
| Ival (i : Interval).

(** Attribute access [x.begin], [x.end], [x.data]. *)
Definition attr_begin (x : operand) : result Z :=
  match x with
  | Point _ => Raise AttributeError
  | Ival i => Ok (begin i)
  end.

Definition attr_end (x : operand) : result Z :=
  match x with
  | Point _ => Raise AttributeError
  | Ival i => Ok (end_ i)
  end.

Definition attr_data (x : operand) : result pyval :=
  match x with
  | Point _ => Raise AttributeError
  | Ival i => Ok (data i)
  end.

(** ** Python's comparison of the values involved *)

(** [a == b] on payloads.  Lists are equal when they have the same length and
    equal items; values of different types are unequal. *)
Fixpoint py_eq (a b : pyval) : bool :=
  match a, b with
  | PyNone, PyNone => true
  | PyInt x, PyInt y => x =? y
  | PyStr s, PyStr t => String.eqb s t
  | PyList l, PyList m =>
      (fix items (l m : list pyval) : bool :=
         match l, m with
         | [], [] => true
         | x :: l', y :: m' => py_eq x y && items l' m'
         | _, _ => false
         end) l m
  | _, _ => false
  end.

(** [a < b] on payloads: integers by value, strings by code point, lists by
    their first differing item (the shorter list first when one is a prefix
    of the other); anything else is a [TypeError]. *)
Fixpoint py_lt (a b : pyval) : result bool :=
  match a, b with
  | PyInt x, PyInt y => Ok (x <? y)
  | PyStr s, PyStr t => Ok (String.ltb s t)
  | PyList l, PyList m =>
      (fix items (l m : list pyval) : result bool :=
         match l, m with
         | x :: l', y :: m' => if py_eq x y then items l' m' else py_lt x y
         | [], _ :: _ => Ok true
         | _, [] => Ok false
         end) l m
  | _, _ => Raise TypeError
  end.

(** [type(v).__name__]. *)
Definition type_name (v : pyval) : string :=
  match v with
  | PyNone => "NoneType"
  | PyInt _ => "int"
  | PyStr _ => "str"
  | PyList _ => "list"
  end.

(** Tuples of points, compared as Python compares tuples. *)
Fixpoint tuple_eq (s o : list Z) : bool :=
  match s, o with
  | [], [] => true
  | x :: s', y :: o' => (x =? y) && tuple_eq s' o'
  | _, _ => false
  end.

Fixpoint tuple_lt (s o : list Z) : bool :=
  match s, o with
  | x :: s', y :: o' => if x =? y then tuple_lt s' o' else x <? y
  | [], _ :: _ => true
  | _, [] => false
  end.

(** ** The methods of [Interval] *)

(** The arguments of [overlaps] and [overlap_size]: [(begin, end)] with both
    given, or [begin] alone ([end] left at its default [None]). *)
Inductive query : Type :=
| Q2 (b e : Z)
| Q1 (x : operand).

Definition contains_point (self : Interval) (p : operand) : result bool :=
  match p with
  | Point z => Ok ((begin self <=? z) && (z <? end_ self))
  | Ival _ => Raise TypeError
  end.

Definition overlaps (self : Interval) (q : query) : result bool :=
  let range (b e : Z) := (b <? end_ self) && (e >? begin self) in
  match q with
  | Q2 b e => Ok (range b e)
  | Q1 x =>
      try_except
        (b <- attr_begin x ;; e <- attr_end x ;; Ok (range b e))
        (contains_point self x)
  end.

Definition overlap_size (self : Interval) (q : query) : result Z :=
  ov <- overlaps self q ;;
  if negb ov then Ok 0
  else
    match q with
    | Q2 b e =>
        let i0 := Z.max (begin self) b in
        let i1 := Z.min (end_ self) e in
        Ok (i1 - i0)
    | Q1 x =>
        xb <- attr_begin x ;;
        let i0 := Z.max (begin self) xb in
        xe <- attr_end x ;;
        let i1 := Z.min (end_ self) xe in
        Ok (i1 - i0)
    end.

Definition range_matches (self other : Interval) : bool :=
  (begin self =? begin other) && (end_ self =? end_ other).

Definition contains_interval (self other : Interval) : bool :=
  (begin self <=? begin other) && (end_ self >=? end_ other).

Definition distance_to (self : Interval) (other : operand) : result Z :=
  ov <- overlaps self (Q1 other) ;;
  if ov then Ok 0
  else
    try_except
      (ob <- attr_begin other ;;
       if begin self <? ob then Ok (ob - end_ self)
       else oe <- attr_end other ;; Ok (begin self - oe))
      (match other with
       | Point p => if end_ self <=? p then Ok (p - end_ self)
                    else Ok (begin self - p)
       | Ival _ => Raise TypeError
       end).

Definition is_null (self : Interval) : bool := begin self >=? end_ self.

Definition length (self : Interval) : Z :=
  if is_null self then 0 else end_ self - begin self.

Section Hashing.

(** Python's built-in [hash] on a tuple of points. *)
Variable hash : list Z -> Z.

Definition __hash__ (self : Interval) : Z := hash [begin self; end_ self].

End Hashing.

(** The outcome of a rich comparison method. *)
Inductive richcmp : Type :=
| NotImplemented
| Return (b : bool).

Definition __eq__ (self : Interval) (other : operand) : richcmp :=
  match other with
  | Point _ => NotImplemented
  | Ival o =>
      Return ((begin self =? begin o) && (end_ self =? end_ o)
              && py_eq (data self) (data o))
  end.

Definition __cmp__ (self : Interval) (other : operand) : result Z :=
  let s := [begin self; end_ self] in
  let o := match other with
           | Ival i => [begin i; end_ i]
           | Point p => [p]
           end in
  if negb (tuple_eq s o) then Ok (if tuple_lt s o then -1 else 1)
  else
    try_except_TypeError
      (od <- attr_data other ;;
       if py_eq (data self) od then Ok 0
       else lt <- py_lt (data self) od ;; Ok (if lt then -1 else 1))
      (let s := type_name (data self) in
       od <- attr_data other ;;
       let o := type_name od in
       if String.eqb s o then Ok 0
       else Ok (if String.ltb s o then -1 else 1)).

Definition __lt__ (self : Interval) (other : operand) : result bool :=
  c <- __cmp__ self other ;; Ok (c <? 0).

Definition __gt__ (self : Interval) (other : operand) : result bool :=
  c <- __cmp__ self other ;; Ok (c >? 0).

Definition _raise_if_null (self : Interval) (other : operand) : result unit :=
  if is_null self then Raise ValueError
  else
    match other with
    | Ival o => if is_null o then Raise ValueError else Ok tt
    | Point _ => Ok tt
    end.

(** [getattr(other, 'begin', other)] and [getattr(other, 'end', other)]. *)
Definition getattr_begin (other : operand) : Z :=
  match other with
  | Ival o => begin o
  | Point p => p
  end.

Definition getattr_end (other : operand) : Z :=
  match other with
  | Ival o => end_ o
  | Point p => p
  end.

Definition lt (self : Interval) (other : operand) : result bool :=
  _ <- _raise_if_null self other ;;
  Ok (end_ self <=? getattr_begin other).

Definition le (self : Interval) (other : operand) : result bool :=
  _ <- _raise_if_null self other ;;
  Ok (end_ self <=? getattr_end other).

Definition gt (self : Interval) (other : operand) : result bool :=
  _ <- _raise_if_null self other ;;
  match other with
  | Ival o => Ok (begin self >=? end_ o)
  | Point p => Ok (begin self >? p)
  end.

Definition ge (self : Interval) (other : operand) : result bool :=
  _ <- _raise_if_null self other ;;
  Ok (begin self >=? getattr_begin other).

(** [_get_fields]: the arguments from which the Interval is rebuilt. *)
Definition _get_fields (self : Interval) : list pyval :=
  match data self with
  | PyNone => [PyInt (begin self); PyInt (end_ self)]
  | d => [PyInt (begin self); PyInt (end_ self); d]
  end.

Definition copy (self : Interval) : Interval :=
  Interval_new (begin self) (end_ self) (Some (data self)).

(** [__reduce__] returns the class with these fields. *)
Definition __reduce__ (self : Interval) : list pyval := _get_fields self.

(** The constructor applied to an unpacked tuple of fields, as [__reduce__]
    asks of the unpickler and as a call in source text does. *)
Definition Interval_of_fields (fields : list pyval) : option Interval :=
  match fields with
  | [PyInt b; PyInt e] => Some (Interval_new b e None)
  | [PyInt b; PyInt e; d] => Some (Interval_new b e (Some d))
  | _ => None
  end.

(** ** CPython's [hash] of a tuple of integers (64-bit build, 3.8 and later) *)

Module CPython.

Definition PyHASH_MODULUS : Z := 2 ^ 61 - 1.
Definition XXPRIME_1 : Z := 11400714785074694791.
Definition XXPRIME_2 : Z := 14029467366897019727.
Definition XXPRIME_5 : Z := 2870177450012600261.

Definition u64 (x : Z) : Z := x mod 2 ^ 64.
Definition s64 (x : Z) : Z := if x <? 2 ^ 63 then x else x - 2 ^ 64.

Definition hash_int (n : Z) : Z :=
  let h := Z.sgn n * (Z.abs n mod PyHASH_MODULUS) in
  if h =? -1 then -2 else h.

Definition rotl31 (x : Z) : Z := u64 (Z.lor (Z.shiftl x 31) (Z.shiftr x 33)).

Definition hash_tuple (t : list Z) : Z :=
  let step (acc item : Z) :=
    let lane := u64 (hash_int item) in
    u64 (rotl31 (u64 (acc + lane * XXPRIME_2)) * XXPRIME_1) in
  let acc := fold_left step t XXPRIME_5 in
  let acc := u64 (acc + Z.lxor (Z.of_nat (List.length t))
                               (Z.lxor XXPRIME_5 3527539)) in
  if acc =? 2 ^ 64 - 1 then 1546275796 else s64 acc.

End CPython.

(** ** The textual representation *)

(** Characters are code points below 256. *)
Definition squote : ascii := "039".
Definition dquote : ascii := "034".
Definition backslash : ascii := "092".

(** [str(n)] and [repr(n)] of an integer: decimal digits after an optional
    minus sign. *)
Definition str_int (z : Z) : string := NilZero.string_of_int (Z.to_int z).

Definition hex_digit (n : N) : ascii :=
  ascii_of_N (if (n <? 10)%N then 48 + n else 87 + n).

Definition hex2 (c : ascii) : string :=
  let n := N_of_ascii c in
  String (hex_digit (n / 16)) (String (hex_digit (n mod 16)) EmptyString).

(** Printable code points below 256: the ASCII range from the space to the
    tilde, and the Latin-1 range from 161 on, the soft hyphen excepted. *)
Definition printable (c : ascii) : bool :=
  let n := N_of_ascii c in
  ((32 <=? n) && (n <? 127) || (161 <=? n) && negb (n =? 173))%N.

Definition repr_char (quote c : ascii) : string :=
  if Ascii.eqb c quote || Ascii.eqb c backslash
  then String backslash (String c EmptyString)
  else if Ascii.eqb c "009" then String backslash "t"
  else if Ascii.eqb c "010" then String backslash "n"
  else if Ascii.eqb c "013" then String backslash "r"
  else if printable c then String c EmptyString
  else String backslash (String "x" (hex2 c)).

Fixpoint contains (c : ascii) (s : string) : bool :=
  match s with
  | EmptyString => false
  | String d s' => Ascii.eqb c d || contains c s'
  end.

Fixpoint escape (quote : ascii) (s : string) : string :=
  match s with
  | EmptyString => EmptyString
  | String c s' => repr_char quote c ++ escape quote s'
  end.

(** [repr(s)] of a string: single quotes, unless the string holds a single
    quote and no double quote. *)
Definition repr_str (s : string) : string :=
  let quote :=
    if contains squote s && negb (contains dquote s) then dquote else squote in
  String quote (escape quote s ++ String quote EmptyString).

Fixpoint repr (v : pyval) : string :=
  match v with
  | PyNone => "None"
  | PyInt z => str_int z
  | PyStr s => repr_str s
  | PyList l =>
      "[" ++
      (fix items (l : list pyval) : string :=
         match l with
         | [] => EmptyString
         | x :: l' =>
             repr x ++ match l' with
                       | [] => EmptyString
                       | _ :: _ => ", " ++ items l'
                       end
         end) l ++ "]"
  end.

Definition __repr__ (self : Interval) : string :=
  let s_begin := str_int (begin self) in
  let s_end := str_int (end_ self) in
  match data self with
  | PyNone => "Interval(" ++ s_begin ++ ", " ++ s_end ++ ")"
  | d => "Interval(" ++ s_begin ++ ", " ++ s_end ++ ", " ++ repr d ++ ")"
  end.

(** ** Evaluating a representation

    The fragment of Python's expression evaluation that the representations
    above fall in: integer and string literals, [None], list displays, and a
    call of [Interval] with two or three positional arguments. *)

Definition digit_of (c : ascii) : option (Decimal.uint -> Decimal.uint) :=
  match c with
  | "0" => Some Decimal.D0
  | "1" => Some Decimal.D1
  | "2" => Some Decimal.D2
  | "3" => Some Decimal.D3
  | "4" => Some Decimal.D4
  | "5" => Some Decimal.D5
  | "6" => Some Decimal.D6
  | "7" => Some Decimal.D7
  | "8" => Some Decimal.D8
  | "9" => Some Decimal.D9
  | _ => None
  end%char.

(** The longest run of digits at the head of [s]. *)
Fixpoint scan_uint (s : string) : Decimal.uint * string :=
  match s with
  | EmptyString => (Decimal.Nil, EmptyString)
  | String c s' =>
      match digit_of c with
      | Some d => let (u, r) := scan_uint s' in (d u, r)
      | None => (Decimal.Nil, s)
      end
  end.

(** A decimal literal: at least one digit, and no leading zero on a literal
    of several digits. *)
Definition eval_uint (s : string) : option (Z * string) :=
  let (u, r) := scan_uint s in
  if Decimal.uint_beq (Decimal.unorm u) u then Some (Z.of_uint u, r) else None.

Definition eval_int (s : string) : option (Z * string) :=
  match s with
  | String c s' =>
      if Ascii.eqb c "-" then
        match eval_uint s' with
        | Some (n, r) => Some (- n, r)
        | None => None
        end
      else eval_uint s
  | EmptyString => None
  end.

Definition unhex (c : ascii) : option N :=
  let n := N_of_ascii c in
  if ((48 <=? n) && (n <=? 57))%N then Some (n - 48)%N
  else if ((97 <=? n) && (n <=? 102))%N then Some (n - 87)%N
  else if ((65 <=? n) && (n <=? 70))%N then Some (n - 55)%N
  else None.

(** The body of a string literal up to the closing [quote]. *)
Fixpoint scan_str (quote : ascii) (s : string) : option (string * string) :=
  let cons (c : ascii) (r : option (string * string)) :=
    match r with
    | Some (body, rest) => Some (String c body, rest)
    | None => None
    end in
  match s with
  | EmptyString => None
  | String c s' =>
      if Ascii.eqb c quote then Some (EmptyString, s')
      else if Ascii.eqb c backslash then
        match s' with
        | String e s'' =>
            if Ascii.eqb e backslash || Ascii.eqb e squote || Ascii.eqb e dquote
            then cons e (scan_str quote s'')
            else if Ascii.eqb e "t" then cons "009"%char (scan_str quote s'')
            else if Ascii.eqb e "n" then cons "010"%char (scan_str quote s'')
            else if Ascii.eqb e "r" then cons "013"%char (scan_str quote s'')
            else if Ascii.eqb e "x" then
              match s'' with
              | String h (String l s3) =>
                  match unhex h, unhex l with
                  | Some hi, Some lo =>
                      cons (ascii_of_N (16 * hi + lo)) (scan_str quote s3)
                  | _, _ => None
                  end
              | _ => None
              end
            else None
        | EmptyString => None
        end
      else if (N_of_ascii c <? 32)%N || Ascii.eqb c "127" then None
      else cons c (scan_str quote s')
  end.

Fixpoint strip_prefix (p s : string) : option string :=
  match p, s with
  | EmptyString, _ => Some s
  | String a p', String b s' => if Ascii.eqb a b then strip_prefix p' s' else None
  | String _ _, EmptyString => None
  end.

(** [eval_expr fuel s] evaluates the expression at the head of [s] and
    returns its value with the rest of [s]; [eval_tail fuel s] reads the
    remaining items of a list display, each after a comma, up to the closing
    bracket. *)
Fixpoint eval_expr (fuel : nat) (s : string) {struct fuel}
  : option (pyval * string) :=
  match fuel with
  | O => None
  | S fuel' =>
      match s with
      | EmptyString => None
      | String c s' =>
          if Ascii.eqb c "N" then
            match strip_prefix "one" s' with
            | Some r => Some (PyNone, r)
            | None => None
            end
          else if Ascii.eqb c "[" then
            match strip_prefix "]" s' with
            | Some r => Some (PyList [], r)
            | None =>
                match eval_expr fuel' s' with
                | Some (v, r) =>
                    match eval_tail fuel' r with
                    | Some (vs, r') => Some (PyList (v :: vs), r')
                    | None => None
                    end
                | None => None
                end
            end
          else if Ascii.eqb c squote || Ascii.eqb c dquote then
            match scan_str c s' with
            | Some (body, r) => Some (PyStr body, r)
            | None => None
            end
          else
            match eval_int s with
            | Some (n, r) => Some (PyInt n, r)
            | None => None
            end
      end
  end
with eval_tail (fuel : nat) (s : string) {struct fuel}
  : option (list pyval * string) :=
  match fuel with
  | O => None
  | S fuel' =>
      match strip_prefix "]" s with
      | Some r => Some ([], r)
      | None =>
          match strip_prefix ", " s with
          | Some s' =>
              match eval_expr fuel' s' with
              | Some (v, r) =>
                  match eval_tail fuel' r with
                  | Some (vs, r') => Some (v :: vs, r')
                  | None => None
                  end
              | None => None
              end
          | None => None
          end
      end
  end.

(** The positional arguments of a call [Interval(...)] with two or three
    arguments. *)
Definition eval_args (s : string) : option (list pyval) :=
  let fuel := S (String.length s) in
  match strip_prefix "Interval(" s with
  | None => None
  | Some s1 =>
      match eval_expr fuel s1 with
      | None => None
      | Some (b, s2) =>
          match strip_prefix ", " s2 with
          | None => None
          | Some s3 =>
              match eval_expr fuel s3 with
              | None => None
              | Some (e, s4) =>
                  if String.eqb s4 ")" then Some [b; e]
                  else
                    match strip_prefix ", " s4 with
                    | None => None
                    | Some s5 =>
                        match eval_expr fuel s5 with
                        | Some (d, s6) =>
                            if String.eqb s6 ")" then Some [b; e; d] else None
                        | None => None
                        end
                    end
              end
          end
      end
  end.

(** The representation evaluated as a constructor call. *)
Definition eval_call (s : string) : option Interval :=
  match eval_args s with
  | Some fields => Interval_of_fields fields
  | None => None
  end.

(** ** Notions used in the statements *)

(** [other] is an Interval and it is null. *)
Definition null_operand (X : operand) : bool :=
  match X with
  | Ival o => is_null o
  | Point _ => false
  end.

(** The four directional predicates. *)
Definition directional : list (Interval -> operand -> result bool) :=
  [lt; le; gt; ge].

(** The half-open overlap test on two intervals, as a truth value. *)
Definition overlapping (A B : Interval) : bool :=
  (begin B <? end_ A) && (end_ B >? begin A).

(** The comparator in the words of its documentation: order by begin, then by
    end, then by payload; payloads that cannot be compared are ordered by the
    name of their type. *)
Definition sign (c : comparison) : Z :=
  match c with
  | Lt => -1
  | Eq => 0
  | Gt => 1
  end.

Definition range_compare (A B : Interval) : comparison :=
  match begin A ?= begin B with
  | Eq => end_ A ?= end_ B
  | c => c
  end.

(** An attempt to compare two payloads; [None] when the attempt fails. *)
Definition payload_compare (a b : pyval) : option comparison :=
  if py_eq a b then Some Eq
  else match py_lt a b with
       | Ok true => Some Lt
       | Ok false => Some Gt
       | Raise _ => None
       end.

Definition three_way_spec (A B : Interval) : Z :=
  match range_compare A B with
  | Eq =>
      match payload_compare (data A) (data B) with
      | Some c => sign c
      | None => sign (String.compare (type_name (data A)) (type_name (data B)))
      end
  | c => sign c
  end.

(** Text that does not begin with a digit. *)
Definition not_digit_headed (s : string) : Prop :=
  match s with
  | EmptyString => True
  | String c _ => digit_of c = None
  end.

(** The head of an integer literal: a digit or a minus sign. *)
Definition int_head (c : ascii) : bool :=
  match digit_of c with
  | Some _ => true
  | None => Ascii.eqb c "-"
  end.

(** The items of a list display, and what follows its first item. *)
Definition repr_items : list pyval -> string :=
  fix items (l : list pyval) : string :=
    match l with
    | [] => EmptyString
    | x :: l' =>
        repr x ++ match l' with
                  | [] => EmptyString
                  | _ :: _ => ", " ++ items l'
                  end
    end.

Fixpoint tail_str (l : list pyval) : string :=
  match l with
  | [] => "]"
  | x :: l' => ", " ++ repr x ++ tail_str l'
  end.

(** What the round trip asks of one value: enough fuel evaluates its
    representation back, whatever non-digit text follows. *)
Definition evaluates_back (v : pyval) : Prop :=
  forall (fuel : nat) (rest : string),
    (String.length (repr v) <= fuel)%nat ->
    not_digit_headed rest ->
    eval_expr fuel (repr v ++ rest) = Some (v, rest).

(** The outcome of [b < a], given that of [a < b] on unequal values. *)
Definition flipped (r : result bool) : result bool :=
  match r with
  | Ok t => Ok (negb t)
  | Raise e => Raise e
  end.

(** The third key of the order: the payloads when they compare, their type
    names when they do not. *)
Definition payload_order (a b : pyval) : comparison :=
  match payload_compare a b with
  | Some c => c
  | None => String.compare (type_name a) (type_name b)
  end.

(** The order of two intervals: by range, then by payload. *)
Definition interval_order (A B : Interval) : comparison :=
  match range_compare A B with
  | Eq => payload_order (data A) (data B)
  | c => c
  end.

(** A payload that is not a list: [None], an integer or a string. *)
Definition flat (v : pyval) : bool :=
  match v with
  | PyList _ => false
  | _ => true
  end.

(** * Properties *)

(** ** Overlap tests *)

Lemma overlaps_interval (iv X : Interval) :
  overlaps iv (Q1 (Ival X)) = overlaps iv (Q2 (begin X) (end_ X)).
Proof. reflexivity. Qed.

Lemma overlaps_point (iv : Interval) (p : Z) :
  overlaps iv (Q1 (Point p)) = contains_point iv (Point p).
Proof. reflexivity. Qed.

Lemma overlaps_returns (iv : Interval) (q : query) :
  exists ov, overlaps iv q = Ok ov.
Proof. destruct q as [b e | [p | X]]; eexists; reflexivity. Qed.

Lemma overlaps_overlapping (A B : Interval) :
  overlaps A (Q1 (Ival B)) = Ok (overlapping A B).
Proof. reflexivity. Qed.

Lemma overlapping_sym (A B : Interval) : overlapping A B = overlapping B A.
Proof. unfold overlapping. lia. Qed.

Lemma overlaps_self (A : Interval) :
  overlaps A (Q2 (begin A) (end_ A)) = Ok (negb (is_null A)).
Proof. unfold overlaps, is_null. f_equal. lia. Qed.

Lemma length_nonneg (A : Interval) :
  0 <= length A /\ (is_null A = true -> length A = 0).
Proof. unfold length, is_null. destruct (begin A >=? end_ A) eqn:E; lia. Qed.

Lemma copy_eq (A : Interval) : copy A = A.
Proof. now destruct A. Qed.

Lemma contains_interval_antisym (A B : Interval) :
  contains_interval A B = true -> contains_interval B A = true ->
  range_matches A B = true.
Proof. unfold contains_interval, range_matches. lia. Qed.

(** C1.  [S.overlaps(b, e)] returns true exactly when [b < S.end] and
    [e > S.begin]; for a single point [p], [S.overlaps(p)] and
    [S.contains_point(p)] return true exactly when [S.begin <= p < S.end].
    Both always return. *)
Theorem overlaps_spec (iv : Interval) :
  (forall b e : Z,
      exists r, overlaps iv (Q2 b e) = Ok r /\
                (r = true <-> b < end_ iv /\ e > begin iv)) /\
  (forall p : Z,
      exists r, overlaps iv (Q1 (Point p)) = Ok r /\
                contains_point iv (Point p) = Ok r /\
                (r = true <-> begin iv <= p < end_ iv)).
Proof.
  split.
  - intros b e. eexists. split; [reflexivity | lia].
  - intros p. eexists. repeat split; try reflexivity; lia.
Qed.

(** ** The directional predicates [lt], [le], [gt], [ge] *)

Lemma _raise_if_null_ok (iv : Interval) (X : operand) :
  is_null iv = false -> null_operand X = false -> _raise_if_null iv X = Ok tt.
Proof.
  unfold _raise_if_null. intros -> HX.
  destruct X as [p | o]; simpl in *; [reflexivity | now rewrite HX].
Qed.

Lemma _raise_if_null_raise (iv : Interval) (X : operand) :
  is_null iv || null_operand X = true -> _raise_if_null iv X = Raise ValueError.
Proof.
  unfold _raise_if_null. destruct (is_null iv); [reflexivity |].
  destruct X as [p | o]; simpl; [discriminate | now intros ->].
Qed.

Lemma raises_Ok {A : Type} (a : A) : ~ raises (Ok a).
Proof. intros [e He]. discriminate. Qed.

Lemma raises_Raise {A : Type} (e : exn) : raises (@Raise A e).
Proof. now exists e. Qed.

#[local] Hint Resolve raises_Raise : core.

Lemma directional_cases (f : Interval -> operand -> result bool) :
  In f directional -> f = lt \/ f = le \/ f = gt \/ f = ge.
Proof. simpl. intuition auto. Qed.

Lemma directional_null (f : Interval -> operand -> result bool)
      (iv : Interval) (X : operand) :
  In f directional ->
  is_null iv || null_operand X = true -> f iv X = Raise ValueError.
Proof.
  intros Hf Hn. apply _raise_if_null_raise in Hn.
  destruct (directional_cases f Hf) as [-> | [-> | [-> | ->]]];
    unfold lt, le, gt, ge; now rewrite Hn.
Qed.

Lemma directional_non_null (f : Interval -> operand -> result bool)
      (iv : Interval) (X : operand) :
  In f directional ->
  is_null iv = false -> null_operand X = false -> exists r, f iv X = Ok r.
Proof.
  intros Hf Hiv HX. pose proof (_raise_if_null_ok iv X Hiv HX) as Hok.
  destruct (directional_cases f Hf) as [-> | [-> | [-> | ->]]];
    unfold lt, le, gt, ge; rewrite Hok; simpl;
    try (eexists; reflexivity).
  destruct X; eexists; reflexivity.
Qed.

(** C3.  Each of [lt], [le], [gt], [ge] raises exactly when [S] is null or
    [X] is an Interval that is null, and the exception is then the
    ValueError of [_raise_if_null]; with neither operand null the predicate
    returns a truth value. *)
Theorem directional_raise_iff_null
        (f : Interval -> operand -> result bool) (iv : Interval) (X : operand) :
  In f directional ->
  (raises (f iv X) <-> is_null iv = true \/ null_operand X = true) /\
  (raises (f iv X) -> f iv X = Raise ValueError) /\
  (is_null iv = false -> null_operand X = false -> exists r, f iv X = Ok r).
Proof.
  intros Hf.
  assert (Hn : is_null iv || null_operand X = true -> f iv X = Raise ValueError)
    by now apply directional_null.
  assert (Hok : is_null iv = false -> null_operand X = false ->
                exists r, f iv X = Ok r)
    by now apply directional_non_null.
  destruct (is_null iv) eqn:Hiv, (null_operand X) eqn:HX; simpl in Hn.
  4: { destruct (Hok eq_refl eq_refl) as [r Hr]. rewrite Hr.
       repeat split; try (intros H; now apply raises_Ok in H).
       - intros [H | H]; discriminate.
       - eauto. }
  all: rewrite Hn by reflexivity; repeat split; auto; discriminate.
Qed.

Lemma directional_raise_iff_null_witness :
  (raises (gt (mkInterval 1 5 PyNone) (Ival (mkInterval 7 7 PyNone))) <->
   is_null (mkInterval 1 5 PyNone) = true \/
   null_operand (Ival (mkInterval 7 7 PyNone)) = true) /\
  (raises (gt (mkInterval 1 5 PyNone) (Ival (mkInterval 7 7 PyNone))) ->
   gt (mkInterval 1 5 PyNone) (Ival (mkInterval 7 7 PyNone)) = Raise ValueError) /\
  (is_null (mkInterval 1 5 PyNone) = false ->
   null_operand (Ival (mkInterval 7 7 PyNone)) = false ->
   exists r, gt (mkInterval 1 5 PyNone) (Ival (mkInterval 7 7 PyNone)) = Ok r).
Proof.
  apply (directional_raise_iff_null gt (mkInterval 1 5 PyNone)
           (Ival (mkInterval 7 7 PyNone))).
  simpl. auto.
Defined.

(** C4.  For a non-null [S]: [S.lt(X)] is [S.end <= X.begin] on a non-null
    Interval and [S.end <= X] on a point; [S.gt(X)] is [S.begin >= X.end] on a
    non-null Interval and [S.begin > X] on a point.  [Interval(1,5)] is [lt]
    [Interval(5,10)] and is not [lt] [Interval(4,10)]. *)
Theorem lt_gt_spec (iv : Interval) :
  is_null iv = false ->
  (forall X : Interval, is_null X = false ->
     exists r, lt iv (Ival X) = Ok r /\ (r = true <-> end_ iv <= begin X)) /\
  (forall p : Z,
     exists r, lt iv (Point p) = Ok r /\ (r = true <-> end_ iv <= p)) /\
  (forall X : Interval, is_null X = false ->
     exists r, gt iv (Ival X) = Ok r /\ (r = true <-> begin iv >= end_ X)) /\
  (forall p : Z,
     exists r, gt iv (Point p) = Ok r /\ (r = true <-> begin iv > p)) /\
  lt (mkInterval 1 5 PyNone) (Ival (mkInterval 5 10 PyNone)) = Ok true /\
  lt (mkInterval 1 5 PyNone) (Ival (mkInterval 4 10 PyNone)) = Ok false.
Proof.
  intros Hiv. unfold lt, gt.
  repeat split; try reflexivity; intros; eexists;
    (rewrite _raise_if_null_ok by (assumption || reflexivity)); simpl;
    (split; [reflexivity | lia]).
Qed.

Lemma lt_gt_spec_witness :
  exists r, gt (mkInterval 6 9 PyNone) (Ival (mkInterval 1 5 PyNone)) = Ok r /\
            (r = true <-> begin (mkInterval 6 9 PyNone) >= end_ (mkInterval 1 5 PyNone)).
Proof.
  assert (H : is_null (mkInterval 6 9 PyNone) = false) by reflexivity.
  assert (H' : is_null (mkInterval 1 5 PyNone) = false) by reflexivity.
  exact (proj1 (proj2 (proj2 (lt_gt_spec (mkInterval 6 9 PyNone) H)))
           (mkInterval 1 5 PyNone) H').
Defined.

(** C10.  On a plain point [p] and a non-null [S], [S.lt(p)] and [S.le(p)]
    return the same value, namely whether [S.end <= p]. *)
Theorem lt_le_point (iv : Interval) (p : Z) :
  is_null iv = false ->
  lt iv (Point p) = Ok (end_ iv <=? p) /\
  le iv (Point p) = Ok (end_ iv <=? p) /\
  ((end_ iv <=? p) = true <-> end_ iv <= p).
Proof.
  intros Hiv. unfold lt, le.
  rewrite _raise_if_null_ok by (assumption || reflexivity).
  repeat split; lia.
Qed.

Lemma lt_le_point_witness :
  lt (mkInterval 1 5 PyNone) (Point 5) = Ok (5 <=? 5) /\
  le (mkInterval 1 5 PyNone) (Point 5) = Ok (5 <=? 5) /\
  ((5 <=? 5) = true <-> 5 <= 5).
Proof.
  apply (lt_le_point (mkInterval 1 5 PyNone) 5). reflexivity.
Defined.

(** On Intervals the two differ: [le] looks at the other end. *)
Example lt_le_interval_differ :
  lt (mkInterval 1 5 PyNone) (Ival (mkInterval 3 8 PyNone)) = Ok false /\
  le (mkInterval 1 5 PyNone) (Ival (mkInterval 3 8 PyNone)) = Ok true.
Proof. split; reflexivity. Qed.

(** ** Overlap size and distance *)

Lemma distance_to_point (iv : Interval) (p : Z) :
  distance_to iv (Point p) =
    Ok (if (begin iv <=? p) && (p <? end_ iv) then 0
        else if end_ iv <=? p then p - end_ iv else begin iv - p).
Proof.
  unfold distance_to. simpl.
  destruct ((begin iv <=? p) && (p <? end_ iv)); [reflexivity |].
  simpl. now destruct (end_ iv <=? p).
Qed.

Lemma distance_to_interval (A B : Interval) :
  distance_to A (Ival B) =
    Ok (if overlapping A B then 0
        else if begin A <? begin B then begin B - end_ A
             else begin A - end_ B).
Proof.
  unfold distance_to. rewrite overlaps_overlapping. simpl.
  destruct (overlapping A B); [reflexivity |].
  simpl. now destruct (begin A <? begin B).
Qed.

(** C5.  [S.distance_to(X)] is zero when [S.overlaps(X)]; otherwise, on an
    Interval [X], it is [X.begin - S.end] if [S.begin < X.begin] and
    [S.begin - X.end] if not; on a point [X], it is [X - S.end] if
    [S.end <= X] and [S.begin - X] if not. *)
Theorem distance_to_spec (iv : Interval) (X : operand) :
  exists ov,
    overlaps iv (Q1 X) = Ok ov /\
    distance_to iv X =
      Ok (if ov then 0
          else match X with
               | Ival o => if begin iv <? begin o then begin o - end_ iv
                           else begin iv - end_ o
               | Point p => if end_ iv <=? p then p - end_ iv
                            else begin iv - p
               end).
Proof.
  destruct X as [p | o]; eexists; (split; [reflexivity |]).
  - apply distance_to_point.
  - apply distance_to_interval.
Qed.

Lemma overlap_size_interval (A B : Interval) :
  overlap_size A (Q1 (Ival B)) =
    Ok (if overlapping A B
        then Z.min (end_ A) (end_ B) - Z.max (begin A) (begin B)
        else 0).
Proof.
  unfold overlap_size. rewrite overlaps_overlapping. simpl.
  now destruct (overlapping A B).
Qed.

Lemma overlap_size_range (iv : Interval) (b e : Z) :
  exists ov,
    overlaps iv (Q2 b e) = Ok ov /\
    overlap_size iv (Q2 b e) =
      Ok (if ov then Z.min (end_ iv) e - Z.max (begin iv) b else 0).
Proof.
  eexists. split; [reflexivity |]. unfold overlap_size. simpl.
  now destruct ((b <? end_ iv) && (e >? begin iv)).
Qed.

Lemma overlap_size_point_outside (iv : Interval) (p : Z) :
  overlaps iv (Q1 (Point p)) = Ok false ->
  overlap_size iv (Q1 (Point p)) = Ok 0.
Proof. unfold overlap_size. now intros ->. Qed.

Lemma overlap_size_point_inside (iv : Interval) (p : Z) :
  overlaps iv (Q1 (Point p)) = Ok true ->
  overlap_size iv (Q1 (Point p)) = Raise AttributeError.
Proof. unfold overlap_size. now intros ->. Qed.

Lemma overlap_size_positive (A B : Interval) :
  is_null A = false -> is_null B = false -> overlapping A B = true ->
  exists n, overlap_size A (Q1 (Ival B)) = Ok n /\
            overlap_size B (Q1 (Ival A)) = Ok n /\ 0 < n.
Proof.
  intros HA HB Hov. rewrite !overlap_size_interval.
  rewrite <- (overlapping_sym A B), Hov.
  unfold overlapping, is_null in *.
  eexists. repeat split; [f_equal |]; lia.
Qed.

(** C8.  [overlap_size] on a point that lies inside the interval: the overlap
    test succeeds through [contains_point], and the size is then read from
    [begin.begin], which a point does not have.  [Interval(1, 5).overlap_size(3)]
    raises AttributeError; the range and Interval forms of the same query
    return [min(S.end, Q.end) - max(S.begin, Q.begin)]. *)
Theorem overlap_size_point_raises :
  overlaps (mkInterval 1 5 PyNone) (Q1 (Point 3)) = Ok true /\
  overlap_size (mkInterval 1 5 PyNone) (Q1 (Point 3)) = Raise AttributeError /\
  overlap_size (mkInterval 1 5 PyNone) (Q2 3 4) = Ok 1 /\
  overlap_size (mkInterval 1 5 PyNone) (Q1 (Ival (mkInterval 3 4 PyNone))) = Ok 1.
Proof. repeat split. Qed.

(** C6, as stated, fails: two intervals that touch do not overlap and are at
    distance zero, and with a null interval the distance can be negative and
    differ between the two directions. *)
Lemma distance_to_not_positive :
  (let A := mkInterval 1 5 PyNone in
   let B := mkInterval 5 10 PyNone in
   overlaps A (Q1 (Ival B)) = Ok false /\
   ~ (exists d, distance_to A (Ival B) = Ok d /\ d > 0)) /\
  (let A := mkInterval 3 3 PyNone in
   let B := mkInterval 3 7 PyNone in
   overlaps A (Q1 (Ival B)) = Ok false /\
   distance_to A (Ival B) = Ok (-4) /\
   distance_to B (Ival A) = Ok 0).
Proof.
  repeat split. intros [d [Hd Hpos]]. vm_compute in Hd.
  injection Hd as <-. lia.
Qed.

(** C6, amended.  For intervals [A] and [B] that do not overlap,
    [A.overlap_size(B)] is zero; when moreover neither is null,
    [A.distance_to(B)] and [B.distance_to(A)] are the same number, which is
    non-negative, and zero exactly when the two intervals touch. *)
Theorem distance_to_symmetric (A B : Interval) :
  overlaps A (Q1 (Ival B)) = Ok false ->
  overlap_size A (Q1 (Ival B)) = Ok 0 /\
  (is_null A = false -> is_null B = false ->
   exists d,
     distance_to A (Ival B) = Ok d /\
     distance_to B (Ival A) = Ok d /\
     0 <= d /\
     (d = 0 <-> end_ A = begin B \/ end_ B = begin A)).
Proof.
  rewrite overlaps_overlapping. intros Hov. injection Hov as Hov.
  split.
  - rewrite overlap_size_interval. now rewrite Hov.
  - intros HA HB. rewrite !distance_to_interval.
    rewrite <- (overlapping_sym A B), Hov.
    unfold overlapping, is_null in *.
    destruct (begin A <? begin B) eqn:E1, (begin B <? begin A) eqn:E2;
      eexists; repeat split; try reflexivity; try (f_equal; lia); lia.
Qed.

Lemma distance_to_symmetric_witness :
  exists d,
    distance_to (mkInterval 1 5 PyNone) (Ival (mkInterval 8 10 PyNone)) = Ok d /\
    distance_to (mkInterval 8 10 PyNone) (Ival (mkInterval 1 5 PyNone)) = Ok d /\
    0 <= d /\
    (d = 0 <-> end_ (mkInterval 1 5 PyNone) = begin (mkInterval 8 10 PyNone) \/
               end_ (mkInterval 8 10 PyNone) = begin (mkInterval 1 5 PyNone)).
Proof.
  apply (distance_to_symmetric (mkInterval 1 5 PyNone) (mkInterval 8 10 PyNone));
    reflexivity.
Defined.

(** ** Payload equality and comparison *)

Lemma py_eq_true_iff (a b : pyval) : py_eq a b = true <-> a = b.
Proof.
  revert b. induction a as [| x | s | l IH] using pyval_nested_ind;
    intros [| y | t | m]; simpl; try (split; [discriminate | congruence]).
  - tauto.
  - rewrite Z.eqb_eq. split; congruence.
  - rewrite String.eqb_eq. split; congruence.
  - revert m. induction IH as [| x l Hx _ IHl]; intros [| y m];
      try (split; [discriminate | congruence]).
    + tauto.
    + rewrite andb_true_iff, Hx, IHl. split.
      * intros [-> H]. congruence.
      * intros H. injection H as -> ->. auto.
Qed.

Lemma py_lt_raises_TypeError (a b : pyval) (e : exn) :
  py_lt a b = Raise e -> e = TypeError.
Proof.
  revert b. induction a as [| x | s | l IH] using pyval_nested_ind;
    intros [| y | t | m]; simpl; try congruence.
  revert m. induction IH as [| x l Hx _ IHl]; intros [| y m]; try congruence.
  destruct (py_eq x y); [apply IHl | apply Hx].
Qed.

(** ** Equality and hashing *)

Lemma __eq___fields (A B : Interval) :
  __eq__ A (Ival B) = Return true <->
  begin A = begin B /\ end_ A = end_ B /\ data A = data B.
Proof.
  unfold __eq__. split.
  - intros H. injection H as H.
    rewrite !andb_true_iff, py_eq_true_iff, !Z.eqb_eq in H. tauto.
  - intros [Hb [He Hd]]. f_equal.
    rewrite !andb_true_iff, py_eq_true_iff, !Z.eqb_eq. tauto.
Qed.

Lemma __eq___iff (A B : Interval) : __eq__ A (Ival B) = Return true <-> A = B.
Proof.
  rewrite __eq___fields. destruct A, B; simpl. split.
  - intros [-> [-> ->]]. reflexivity.
  - intros H. injection H as -> -> ->. auto.
Qed.

Lemma range_matches_iff (A B : Interval) :
  range_matches A B = true <-> begin A = begin B /\ end_ A = end_ B.
Proof. unfold range_matches. lia. Qed.

(** C7.  Full equality holds exactly when begin, end and payload are all
    equal; the hash is computed from (begin, end) alone, so intervals whose
    ranges match have the same hash.  [Interval(0,5,"x")] and
    [Interval(0,5,"y")] have the same hash and matching ranges and are not
    equal. *)
Theorem eq_hash_spec (hash : list Z -> Z) (A B : Interval) :
  (__eq__ A (Ival B) = Return true <->
   begin A = begin B /\ end_ A = end_ B /\ data A = data B) /\
  (range_matches A B = true -> __hash__ hash A = __hash__ hash B) /\
  (let X := Interval_new 0 5 (Some (PyStr "x")) in
   let Y := Interval_new 0 5 (Some (PyStr "y")) in
   __hash__ hash X = __hash__ hash Y /\
   range_matches X Y = true /\
   __eq__ X (Ival Y) = Return false).
Proof.
  split; [apply __eq___fields | split].
  - intros H. apply range_matches_iff in H. destruct H as [Hb He].
    unfold __hash__. now rewrite Hb, He.
  - repeat split.
Qed.

Lemma eq_hash_spec_witness :
  __hash__ CPython.hash_tuple (mkInterval 0 5 (PyStr "x")) =
  __hash__ CPython.hash_tuple (mkInterval 0 5 (PyStr "y")).
Proof.
  apply (proj1 (proj2 (eq_hash_spec CPython.hash_tuple
                         (mkInterval 0 5 (PyStr "x"))
                         (mkInterval 0 5 (PyStr "y"))))).
  reflexivity.
Defined.

(** ** The three-way comparator *)

Lemma tuple_eq_pair (b1 e1 b2 e2 : Z) :
  tuple_eq [b1; e1] [b2; e2] = true <-> b1 = b2 /\ e1 = e2.
Proof. simpl. lia. Qed.

Lemma tuple_cmp_pair (A B : Interval) :
  match range_compare A B with
  | Eq => tuple_eq [begin A; end_ A] [begin B; end_ B] = true
  | Lt => tuple_eq [begin A; end_ A] [begin B; end_ B] = false /\
          tuple_lt [begin A; end_ A] [begin B; end_ B] = true
  | Gt => tuple_eq [begin A; end_ A] [begin B; end_ B] = false /\
          tuple_lt [begin A; end_ A] [begin B; end_ B] = false
  end.
Proof.
  unfold range_compare. simpl. rewrite !andb_true_r.
  destruct (Z.compare_spec (begin A) (begin B)) as [Hb | Hb | Hb];
    [destruct (Z.compare_spec (end_ A) (end_ B)) as [He | He | He] | |].
  all: destruct (Z.eqb_spec (begin A) (begin B)); try lia; simpl.
  all: try (destruct (Z.eqb_spec (end_ A) (end_ B)); try lia).
  all: repeat split; lia.
Qed.

Lemma string_compare_refl (s : string) : String.compare s s = Eq.
Proof.
  induction s as [| c s IH]; simpl; [reflexivity |].
  unfold Ascii.compare. now rewrite N.compare_refl.
Qed.

Lemma string_order (s o : string) :
  (if String.eqb s o then 0 else if String.ltb s o then -1 else 1)
  = sign (String.compare s o).
Proof.
  unfold String.ltb. destruct (String.eqb_spec s o) as [-> | Hne].
  - now rewrite string_compare_refl.
  - destruct (String.compare s o) eqn:E; try reflexivity.
    now apply String.compare_eq_iff in E.
Qed.

Lemma __cmp___interval (A B : Interval) : __cmp__ A (Ival B) = Ok (three_way_spec A B).
Proof.
  unfold __cmp__, three_way_spec. pose proof (tuple_cmp_pair A B) as Ht.
  destruct (range_compare A B).
  - rewrite Ht. simpl. unfold payload_compare.
    destruct (py_eq (data A) (data B)); [reflexivity |].
    destruct (py_lt (data A) (data B)) as [[|] | e] eqn:Hlt; simpl;
      try reflexivity.
    rewrite (py_lt_raises_TypeError _ _ _ Hlt). simpl.
    rewrite <- string_order.
    destruct (String.eqb (type_name (data A)) (type_name (data B)));
      [reflexivity |].
    now destruct (String.ltb (type_name (data A)) (type_name (data B))).
  - destruct Ht as [-> ->]. reflexivity.
  - destruct Ht as [-> ->]. reflexivity.
Qed.

Lemma __cmp___point (A : Interval) (p : Z) :
  __cmp__ A (Point p) = Ok (if begin A <? p then -1 else 1).
Proof.
  unfold __cmp__. simpl. rewrite andb_false_r. simpl.
  destruct (Z.eqb_spec (begin A) p) as [-> | Hne]; [| reflexivity].
  now rewrite Z.ltb_irrefl.
Qed.



(** The fixture of the specification, in sorted order: begin, then end, then
    payload, the absent payload (type NoneType) before the strings. *)
Example sort_fixture :
  let i13 := Interval_new 1 3 None in
  let i13a := Interval_new 1 3 (Some (PyStr "a")) in
  let i13z := Interval_new 1 3 (Some (PyStr "z")) in
  let i510 := Interval_new 5 10 None in
  __lt__ i13 (Ival i13a) = Ok true /\
  __lt__ i13a (Ival i13z) = Ok true /\
  __lt__ i13z (Ival i510) = Ok true /\
  __cmp__ i13a (Ival i13a) = Ok 0 /\
  __cmp__ (Interval_new 0 1 (Some (PyList [PyInt 1])))
          (Ival (Interval_new 0 1 (Some (PyList [PyStr "a"])))) = Ok 0.
Proof. repeat split. Qed.

(** ** The representation evaluates back *)

Lemma length_append (a b : string) :
  String.length (a ++ b) = (String.length a + String.length b)%nat.
Proof. induction a as [| c a IH]; simpl; [reflexivity | now rewrite IH]. Qed.

Lemma append_assoc (a b c : string) : (a ++ b) ++ c = a ++ b ++ c.
Proof. induction a as [| x a IH]; simpl; [reflexivity | now rewrite IH]. Qed.

Lemma strip_prefix_append (p s : string) : strip_prefix p (p ++ s) = Some s.
Proof.
  induction p as [| c p IH]; simpl; [reflexivity |].
  now rewrite Ascii.eqb_refl.
Qed.

Lemma scan_uint_print (u : Decimal.uint) (rest : string) :
  not_digit_headed rest ->
  scan_uint (NilEmpty.string_of_uint u ++ rest) = (u, rest).
Proof.
  intros Hrest. induction u; simpl; try (now rewrite IHu).
  destruct rest as [| c rest]; simpl in *; [reflexivity | now rewrite Hrest].
Qed.

Lemma to_int_normal (z : Z) : Decimal.norm (Z.to_int z) = Z.to_int z.
Proof. now rewrite <- DecimalZ.to_of, DecimalZ.of_to. Qed.

Lemma to_int_abs_normal (z : Z) :
  Decimal.unorm (Decimal.abs (Z.to_int z)) = Decimal.abs (Z.to_int z).
Proof. now rewrite <- abs_norm, to_int_normal. Qed.

Lemma string_of_uint_normal (u : Decimal.uint) :
  Decimal.unorm u = u -> NilZero.string_of_uint u = NilEmpty.string_of_uint u.
Proof.
  intros H. destruct u; try reflexivity.
  now apply unorm_nonnil in H.
Qed.

Lemma eval_uint_print (u : Decimal.uint) (rest : string) :
  Decimal.unorm u = u -> not_digit_headed rest ->
  eval_uint (NilZero.string_of_uint u ++ rest) = Some (Z.of_uint u, rest).
Proof.
  intros Hu Hrest. unfold eval_uint.
  rewrite string_of_uint_normal, scan_uint_print by assumption.
  rewrite Hu. now rewrite Decimal.internal_uint_dec_lb.
Qed.

Lemma string_of_uint_head (u : Decimal.uint) :
  Decimal.unorm u = u ->
  exists c s, NilZero.string_of_uint u = String c s /\ digit_of c <> None.
Proof.
  intros H. destruct u; simpl; try (eexists; eexists; split; [reflexivity | discriminate]).
Qed.

Lemma eval_int_str_int (z : Z) (rest : string) :
  not_digit_headed rest -> eval_int (str_int z ++ rest) = Some (z, rest).
Proof.
  intros Hrest. unfold str_int.
  pose proof (to_int_abs_normal z) as Hn. pose proof (DecimalZ.of_to z) as Hz.
  destruct (Z.to_int z) as [u | u]; simpl in Hn, Hz |- *.
  - destruct (string_of_uint_head u Hn) as [c [s [Hs Hc]]].
    pose proof (eval_uint_print u rest Hn Hrest) as He.
    rewrite Hs in *. simpl in He |- *.
    destruct (Ascii.eqb_spec c "-") as [-> | _]; [now elim Hc |].
    now rewrite He, Hz.
  - rewrite eval_uint_print by assumption. now rewrite Hz.
Qed.

Lemma scan_str_repr_char (q c : ascii) (tail : string) :
  q = squote \/ q = dquote ->
  scan_str q (repr_char q c ++ tail) =
    match scan_str q tail with
    | Some (body, rest) => Some (String c body, rest)
    | None => None
    end.
Proof.
  intros [-> | ->]; destruct c as [[] [] [] [] [] [] [] []]; reflexivity.
Qed.

Lemma scan_str_escape (q : ascii) (s rest : string) :
  q = squote \/ q = dquote ->
  scan_str q (escape q s ++ String q rest) = Some (s, rest).
Proof.
  intros Hq. induction s as [| c s IH]; simpl.
  - now rewrite Ascii.eqb_refl.
  - rewrite append_assoc, scan_str_repr_char by assumption. now rewrite IH.
Qed.

Lemma repr_list (l : list pyval) : repr (PyList l) = "[" ++ repr_items l ++ "]".
Proof. reflexivity. Qed.

Lemma repr_items_tail (x : pyval) (l : list pyval) :
  repr_items (x :: l) ++ "]" = repr x ++ tail_str l.
Proof.
  revert x. induction l as [| y l IH]; intros x.
  - simpl. now rewrite append_assoc.
  - change (repr_items (x :: y :: l)) with (repr x ++ ", " ++ repr_items (y :: l)).
    rewrite !append_assoc, IH. reflexivity.
Qed.

Lemma repr_list_cons (x : pyval) (l : list pyval) :
  repr (PyList (x :: l)) = "[" ++ repr x ++ tail_str l.
Proof. now rewrite repr_list, repr_items_tail. Qed.

Lemma int_head_dispatch (c : ascii) :
  int_head c = true ->
  Ascii.eqb c "N" = false /\ Ascii.eqb c "[" = false /\
  Ascii.eqb c squote = false /\ Ascii.eqb c dquote = false /\
  Ascii.eqb "]" c = false.
Proof.
  destruct c as [[] [] [] [] [] [] [] []]; intros H;
    try discriminate H; repeat split.
Qed.

Lemma str_int_head (z : Z) :
  exists c s, str_int z = String c s /\ int_head c = true.
Proof.
  unfold str_int. pose proof (to_int_abs_normal z) as Hn.
  destruct (Z.to_int z) as [u | u]; simpl in *.
  - destruct (string_of_uint_head u Hn) as [c [s [Hs Hc]]].
    exists c, s. split; [assumption |]. unfold int_head.
    now destruct (digit_of c).
  - eexists; eexists; split; reflexivity.
Qed.

(** A representation never begins with a closing bracket. *)
Lemma repr_head (v : pyval) :
  exists c s, repr v = String c s /\ Ascii.eqb "]" c = false.
Proof.
  destruct v as [| z | s | l].
  - eexists; eexists; split; reflexivity.
  - destruct (str_int_head z) as [c [s [Hs Hc]]]. exists c, s.
    split; [assumption | now apply int_head_dispatch].
  - unfold repr, repr_str.
    destruct (contains squote s && negb (contains dquote s));
      eexists; eexists; split; reflexivity.
  - eexists; eexists; split; reflexivity.
Qed.

Lemma tail_str_not_digit_headed (l : list pyval) (rest : string) :
  not_digit_headed (tail_str l ++ rest).
Proof. destruct l; reflexivity. Qed.

Lemma eval_tail_repr (l : list pyval) :
  Forall evaluates_back l ->
  forall (fuel : nat) (rest : string),
    (String.length (tail_str l) <= fuel)%nat ->
    eval_tail fuel (tail_str l ++ rest) = Some (l, rest).
Proof.
  induction 1 as [| x l Hx _ IH]; intros fuel rest Hfuel;
    (destruct fuel as [| f]; [simpl in Hfuel; lia |]).
  - reflexivity.
  - simpl in Hfuel. rewrite !length_append in Hfuel.
    simpl. rewrite append_assoc.
    rewrite Hx by (lia || apply tail_str_not_digit_headed).
    now rewrite IH by lia.
Qed.

Lemma eval_expr_list (f : nat) (s : string) :
  eval_expr (S f) (String "[" s) =
    match strip_prefix "]" s with
    | Some r => Some (PyList [], r)
    | None =>
        match eval_expr f s with
        | Some (v, r) =>
            match eval_tail f r with
            | Some (vs, r') => Some (PyList (v :: vs), r')
            | None => None
            end
        | None => None
        end
    end.
Proof. reflexivity. Qed.

Lemma eval_expr_repr (v : pyval) : evaluates_back v.
Proof.
  induction v as [| z | s | l IH] using pyval_nested_ind;
    intros fuel rest Hfuel Hrest.
  - destruct fuel as [| f]; [simpl in Hfuel; lia | reflexivity].
  - destruct (str_int_head z) as [c [s [Hs Hc]]].
    pose proof (eval_int_str_int z rest Hrest) as He.
    simpl in *. rewrite Hs in *.
    destruct fuel as [| f]; [simpl in Hfuel; lia |].
    destruct (int_head_dispatch c Hc) as [H1 [H2 [H3 [H4 _]]]].
    simpl in He |- *. rewrite H1, H2, H3, H4. simpl.
    now rewrite He.
  - destruct fuel as [| f]; [simpl in Hfuel; lia |].
    unfold repr, repr_str.
    destruct (contains squote s && negb (contains dquote s)); simpl;
      rewrite append_assoc; simpl;
      now rewrite scan_str_escape by auto.
  - destruct l as [| x l].
    + destruct fuel as [| f]; [simpl in Hfuel; lia | reflexivity].
    + rewrite repr_list_cons in *.
      destruct fuel as [| f]; [simpl in Hfuel; lia |].
      simpl in Hfuel. rewrite length_append in Hfuel.
      inversion IH as [| ? ? Hx Hl]; subst.
      destruct (repr_head x) as [c [s [Hs Hc]]].
      assert (Hstrip : strip_prefix "]" (repr x ++ tail_str l ++ rest) = None).
      { rewrite Hs. cbn [strip_prefix append]. now rewrite Hc. }
      change (("[" ++ repr x ++ tail_str l) ++ rest)
        with (String "[" ((repr x ++ tail_str l) ++ rest)).
      rewrite eval_expr_list, append_assoc, Hstrip.
      rewrite Hx by (lia || apply tail_str_not_digit_headed).
      now rewrite (eval_tail_repr l Hl) by lia.
Qed.

Lemma eval_expr_int (fuel : nat) (z : Z) (rest : string) :
  (String.length (str_int z) <= fuel)%nat ->
  not_digit_headed rest ->
  eval_expr fuel (str_int z ++ rest) = Some (PyInt z, rest).
Proof. exact (eval_expr_repr (PyInt z) fuel rest). Qed.

Lemma Interval_of_get_fields (iv : Interval) :
  Interval_of_fields (_get_fields iv) = Some iv.
Proof. destruct iv as [b e [| z | s | l]]; reflexivity. Qed.

Lemma eval_args_repr (iv : Interval) :
  eval_args (__repr__ iv) = Some (_get_fields iv).
Proof.
  unfold eval_args.
  set (fuel := S (String.length (__repr__ iv))).
  assert (Hfuel : (String.length (str_int (begin iv)) <= fuel)%nat /\
                  (String.length (str_int (end_ iv)) <= fuel)%nat /\
                  (String.length (repr (data iv)) <= fuel)%nat).
  { subst fuel. unfold __repr__.
    destruct (data iv); rewrite !length_append; simpl;
      rewrite ?length_append; simpl; lia. }
  destruct Hfuel as [Hb [He Hd]].
  unfold __repr__, _get_fields.
  destruct (data iv) as [| z | s | l] eqn:Hdata;
    rewrite strip_prefix_append;
    rewrite eval_expr_int by (assumption || reflexivity);
    rewrite strip_prefix_append;
    rewrite eval_expr_int by (assumption || reflexivity);
    [reflexivity | | |].
  all: match goal with
       | |- context [String.eqb (", " ++ ?r ++ ")") ")"] =>
           change (String.eqb (", " ++ r ++ ")") ")") with false
       end.
  all: cbv iota; rewrite strip_prefix_append.
  all: rewrite eval_expr_repr by (assumption || reflexivity); reflexivity.
Qed.


(** * Further properties *)

(** ** Overlap *)

(** X1.  Overlap of two intervals is symmetric, and handing over an Interval
    is the same as handing over its two end points. *)
Theorem overlaps_symmetric (A B : Interval) :
  exists r,
    overlaps A (Q1 (Ival B)) = Ok r /\
    overlaps B (Q1 (Ival A)) = Ok r /\
    overlaps A (Q2 (begin B) (end_ B)) = Ok r.
Proof.
  exists (overlapping A B). rewrite !overlaps_overlapping.
  repeat split. now rewrite overlapping_sym.
Qed.

(** X2.  An interval overlaps its own range exactly when it is not null, and
    an interval that contains some point is not null. *)
Theorem overlaps_own_range (A : Interval) :
  overlaps A (Q2 (begin A) (end_ A)) = Ok (negb (is_null A)) /\
  (forall p : Z, contains_point A (Point p) = Ok true -> is_null A = false).
Proof.
  split; [apply overlaps_self |].
  intros p H. injection H as H. unfold is_null. lia.
Qed.

Lemma overlaps_own_range_witness : is_null (mkInterval 1 5 PyNone) = false.
Proof.
  apply (proj2 (overlaps_own_range (mkInterval 1 5 PyNone)) 3). reflexivity.
Defined.


(** ** Overlap size and length *)

Lemma length_non_null (A : Interval) :
  is_null A = false -> length A = end_ A - begin A.
Proof. unfold length. now intros ->. Qed.

(** X4.  The overlap size of two intervals is the same in both directions
    and the same for an Interval as for its end points; when neither interval
    is null it lies between zero and the shorter of the two lengths, and is
    positive exactly when the intervals overlap. *)
Theorem overlap_size_symmetric (A B : Interval) :
  overlap_size A (Q1 (Ival B)) = overlap_size B (Q1 (Ival A)) /\
  overlap_size A (Q1 (Ival B)) = overlap_size A (Q2 (begin B) (end_ B)) /\
  (is_null A = false -> is_null B = false ->
   exists n,
     overlap_size A (Q1 (Ival B)) = Ok n /\
     0 <= n <= Z.min (length A) (length B) /\
     (0 < n <-> overlaps A (Q1 (Ival B)) = Ok true)).
Proof.
  split; [| split].
  - rewrite !overlap_size_interval, (overlapping_sym B A).
    destruct (overlapping A B); [f_equal; lia | reflexivity].
  - reflexivity.
  - intros HA HB. rewrite overlap_size_interval, overlaps_overlapping.
    rewrite !length_non_null by assumption.
    unfold is_null, overlapping in *.
    destruct ((begin B <? end_ A) && (end_ B >? begin A)) eqn:Hov;
      eexists; (split; [reflexivity |]); split; try lia.
    + split; [reflexivity | lia].
    + split; [lia | discriminate].
Qed.

Lemma overlap_size_symmetric_witness :
  exists n,
    overlap_size (mkInterval 1 5 PyNone) (Q1 (Ival (mkInterval 3 9 PyNone))) = Ok n /\
    0 <= n <= Z.min (length (mkInterval 1 5 PyNone)) (length (mkInterval 3 9 PyNone)) /\
    (0 < n <->
     overlaps (mkInterval 1 5 PyNone) (Q1 (Ival (mkInterval 3 9 PyNone))) = Ok true).
Proof.
  apply (proj2 (proj2 (overlap_size_symmetric (mkInterval 1 5 PyNone)
                         (mkInterval 3 9 PyNone)))); reflexivity.
Defined.

(** X5.  The overlap of an interval with itself is its length, and the
    overlap with a non-null interval it contains is the length of that
    interval. *)
Theorem overlap_size_contained (A B : Interval) :
  overlap_size A (Q1 (Ival A)) = Ok (length A) /\
  (contains_interval A B = true -> is_null B = false ->
   overlap_size A (Q1 (Ival B)) = Ok (length B)).
Proof.
  split.
  - rewrite overlap_size_interval. unfold overlapping, length, is_null.
    f_equal.
    destruct ((begin A <? end_ A) && (end_ A >? begin A)) eqn:E1,
             (begin A >=? end_ A) eqn:E2; lia.
  - intros Hc HB. rewrite overlap_size_interval, (length_non_null B HB).
    unfold contains_interval, overlapping, is_null in *. f_equal.
    destruct ((begin B <? end_ A) && (end_ B >? begin A)) eqn:E; lia.
Qed.

Lemma overlap_size_contained_witness :
  overlap_size (mkInterval 0 10 PyNone) (Q1 (Ival (mkInterval 2 6 PyNone)))
  = Ok (length (mkInterval 2 6 PyNone)).
Proof.
  apply (proj2 (overlap_size_contained (mkInterval 0 10 PyNone)
                  (mkInterval 2 6 PyNone))); reflexivity.
Defined.

(** X6.  [length] is never negative, is zero exactly on null intervals, and
    is [end - begin] on the others. *)
Theorem length_spec (A : Interval) :
  0 <= length A /\
  (length A = 0 <-> is_null A = true) /\
  (is_null A = false -> length A = end_ A - begin A).
Proof.
  unfold length, is_null.
  destruct (begin A >=? end_ A) eqn:E; repeat split; intros; lia.
Qed.

Lemma length_spec_witness :
  length (mkInterval 2 6 PyNone) = end_ (mkInterval 2 6 PyNone) - begin (mkInterval 2 6 PyNone).
Proof.
  apply (proj2 (proj2 (length_spec (mkInterval 2 6 PyNone)))). reflexivity.
Defined.

(** ** Containment and matching ranges *)

(** X7.  [contains_interval] is reflexive and transitive, and two intervals
    contain each other exactly when their ranges match. *)
Theorem contains_interval_order (A B C : Interval) :
  contains_interval A A = true /\
  (contains_interval A B = true -> contains_interval B C = true ->
   contains_interval A C = true) /\
  (contains_interval A B = true /\ contains_interval B A = true <->
   range_matches A B = true).
Proof. unfold contains_interval, range_matches. repeat split; lia. Qed.

Lemma contains_interval_order_witness :
  contains_interval (mkInterval 0 10 PyNone) (mkInterval 3 4 PyNone) = true.
Proof.
  apply (proj1 (proj2 (contains_interval_order (mkInterval 0 10 PyNone)
                         (mkInterval 2 6 PyNone) (mkInterval 3 4 PyNone))));
    reflexivity.
Defined.

(** ** Equality and hashing *)

(** X8.  Full equality of Intervals is reflexive, symmetric and transitive,
    and equal Intervals have matching ranges and the same hash. *)
Theorem eq_equivalence (hash : list Z -> Z) (A B C : Interval) :
  __eq__ A (Ival A) = Return true /\
  (__eq__ A (Ival B) = Return true -> __eq__ B (Ival A) = Return true) /\
  (__eq__ A (Ival B) = Return true -> __eq__ B (Ival C) = Return true ->
   __eq__ A (Ival C) = Return true) /\
  (__eq__ A (Ival B) = Return true ->
   range_matches A B = true /\ __hash__ hash A = __hash__ hash B).
Proof.
  rewrite !__eq___iff. repeat split; try congruence.
  subst B. apply range_matches_iff. auto.
Qed.

Lemma eq_equivalence_witness :
  __eq__ (mkInterval 0 5 (PyStr "y")) (Ival (mkInterval 0 5 (PyStr "y")))
  = Return true.
Proof.
  apply (proj1 (proj2 (eq_equivalence CPython.hash_tuple
                         (mkInterval 0 5 (PyStr "y"))
                         (mkInterval 0 5 (PyStr "y"))
                         (mkInterval 0 5 (PyStr "y"))))).
  reflexivity.
Defined.

(** ** Distance to a point *)

(** X9.  The distance from an interval to a point is never negative, also
    for a null interval, and it is zero exactly when the point lies inside
    the interval or is its end. *)
Theorem distance_to_point_spec (A : Interval) (p : Z) :
  exists d,
    distance_to A (Point p) = Ok d /\
    0 <= d /\
    (d = 0 <-> contains_point A (Point p) = Ok true \/ p = end_ A).
Proof.
  rewrite distance_to_point. unfold contains_point.
  destruct ((begin A <=? p) && (p <? end_ A)) eqn:Hin.
  - eexists. split; [reflexivity |]. split; [lia |]. split; auto.
  - destruct (end_ A <=? p) eqn:Hend; eexists;
      (split; [reflexivity |]); (split; [lia |]); split.
    + right. lia.
    + intros [H | H]; [discriminate | lia].
    + intros H. exfalso. lia.
    + intros [H | H]; [discriminate | lia].
Qed.

(** ** The directional predicates together *)

(** X10.  For a non-null interval and an operand that is not a null
    Interval, exactly one of three holds: the interval is [lt] the operand,
    it is [gt] the operand, or it overlaps it. *)
Theorem directional_trichotomy (A : Interval) (X : operand) :
  is_null A = false -> null_operand X = false ->
  exists l g o,
    lt A X = Ok l /\ gt A X = Ok g /\ overlaps A (Q1 X) = Ok o /\
    (l = true /\ g = false /\ o = false \/
     l = false /\ g = true /\ o = false \/
     l = false /\ g = false /\ o = true).
Proof.
  intros HA HX. unfold lt, gt.
  rewrite _raise_if_null_ok by assumption.
  destruct X as [p | B]; simpl in *; do 3 eexists;
    repeat (split; [reflexivity |]); unfold is_null in *; lia.
Qed.

Lemma directional_trichotomy_witness :
  exists l g o,
    lt (mkInterval 1 5 PyNone) (Point 5) = Ok l /\
    gt (mkInterval 1 5 PyNone) (Point 5) = Ok g /\
    overlaps (mkInterval 1 5 PyNone) (Q1 (Point 5)) = Ok o /\
    (l = true /\ g = false /\ o = false \/
     l = false /\ g = true /\ o = false \/
     l = false /\ g = false /\ o = true).
Proof.
  apply (directional_trichotomy (mkInterval 1 5 PyNone) (Point 5)); reflexivity.
Defined.

(** X11.  On two non-null intervals [A.lt(B)] and [B.gt(A)] return the same
    value, [lt] implies [le], and [gt] implies [ge]. *)
Theorem lt_gt_dual (A B : Interval) :
  is_null A = false -> is_null B = false ->
  lt A (Ival B) = gt B (Ival A) /\
  (lt A (Ival B) = Ok true -> le A (Ival B) = Ok true) /\
  (gt A (Ival B) = Ok true -> ge A (Ival B) = Ok true).
Proof.
  intros HA HB. unfold lt, le, gt, ge.
  rewrite !_raise_if_null_ok by assumption. simpl.
  unfold is_null in *.
  repeat split; try (intros H; injection H as H); f_equal; lia.
Qed.

Lemma lt_gt_dual_witness :
  le (mkInterval 1 5 PyNone) (Ival (mkInterval 5 10 PyNone)) = Ok true.
Proof.
  apply (proj1 (proj2 (lt_gt_dual (mkInterval 1 5 PyNone)
                         (mkInterval 5 10 PyNone) eq_refl eq_refl))).
  reflexivity.
Defined.

(** X12.  On two non-null intervals [A.le(B)] and [A.ge(B)] both hold
    exactly when [B] contains [A]. *)
Theorem le_ge_contains (A B : Interval) :
  is_null A = false -> is_null B = false ->
  exists l g,
    le A (Ival B) = Ok l /\ ge A (Ival B) = Ok g /\
    l && g = contains_interval B A.
Proof.
  intros HA HB. unfold le, ge.
  rewrite !_raise_if_null_ok by assumption. simpl.
  do 2 eexists. repeat (split; [reflexivity |]).
  unfold contains_interval. lia.
Qed.

Lemma le_ge_contains_witness :
  exists l g,
    le (mkInterval 2 6 PyNone) (Ival (mkInterval 0 10 PyNone)) = Ok l /\
    ge (mkInterval 2 6 PyNone) (Ival (mkInterval 0 10 PyNone)) = Ok g /\
    l && g = contains_interval (mkInterval 0 10 PyNone) (mkInterval 2 6 PyNone).
Proof.
  apply (le_ge_contains (mkInterval 2 6 PyNone) (mkInterval 0 10 PyNone));
    reflexivity.
Defined.

(** ** The comparator as an order *)

Lemma py_eq_sym (a b : pyval) : py_eq a b = py_eq b a.
Proof.
  destruct (py_eq a b) eqn:E1, (py_eq b a) eqn:E2; try reflexivity.
  - apply py_eq_true_iff in E1. subst b.
    rewrite (proj2 (py_eq_true_iff a a) eq_refl) in E2. discriminate.
  - apply py_eq_true_iff in E2. subst b.
    rewrite (proj2 (py_eq_true_iff a a) eq_refl) in E1. discriminate.
Qed.

Lemma py_lt_flipped (a b : pyval) :
  py_eq a b = false -> py_lt b a = flipped (py_lt a b).
Proof.
  revert b. induction a as [| x | s | l IH] using pyval_nested_ind;
    intros [| y | t | m]; simpl; try reflexivity; try discriminate.
  - intros H. f_equal. lia.
  - intros H. f_equal. unfold String.ltb.
    rewrite (String.compare_antisym s t).
    destruct (String.compare t s) eqn:E; try reflexivity.
    apply String.compare_eq_iff in E. subst t.
    now rewrite String.eqb_refl in H.
  - revert m. induction IH as [| x l Hx _ IHl]; intros [| y m];
      try reflexivity; try discriminate.
    rewrite (py_eq_sym y x). destruct (py_eq x y) eqn:E.
    + simpl. apply IHl.
    + intros _. now apply Hx.
Qed.

Lemma sign_CompOpp (c : comparison) : sign (CompOpp c) = - sign c.
Proof. now destruct c. Qed.

Lemma range_compare_antisym (A B : Interval) :
  range_compare B A = CompOpp (range_compare A B).
Proof.
  unfold range_compare.
  rewrite (Z.compare_antisym (begin A) (begin B)),
          (Z.compare_antisym (end_ A) (end_ B)).
  now destruct (begin A ?= begin B).
Qed.

Lemma payload_compare_antisym (a b : pyval) :
  payload_compare b a = option_map CompOpp (payload_compare a b).
Proof.
  unfold payload_compare. rewrite (py_eq_sym b a).
  destruct (py_eq a b) eqn:E; [reflexivity |].
  rewrite (py_lt_flipped a b E).
  now destruct (py_lt a b) as [[|] | e].
Qed.

Lemma three_way_spec_antisym (A B : Interval) :
  three_way_spec B A = - three_way_spec A B.
Proof.
  unfold three_way_spec.
  rewrite range_compare_antisym, payload_compare_antisym.
  rewrite (String.compare_antisym (type_name (data A)) (type_name (data B))).
  destruct (range_compare A B); simpl; try reflexivity.
  destruct (payload_compare (data A) (data B)) as [c |]; simpl;
    rewrite !sign_CompOpp; lia.
Qed.

(** X13.  Swapping the two intervals negates the result of [__cmp__], so
    [A < B] and [B > A] return the same value. *)
Theorem __cmp___antisym (A B : Interval) :
  exists c,
    __cmp__ A (Ival B) = Ok c /\
    __cmp__ B (Ival A) = Ok (- c) /\
    __lt__ A (Ival B) = __gt__ B (Ival A).
Proof.
  exists (three_way_spec A B). unfold __lt__, __gt__.
  rewrite !__cmp___interval, (three_way_spec_antisym A B). simpl.
  split; [reflexivity | split; [reflexivity |]].
  f_equal. lia.
Qed.

Lemma range_compare_Lt (A B : Interval) :
  range_compare A B = Lt <->
  begin A < begin B \/ (begin A = begin B /\ end_ A < end_ B).
Proof.
  unfold range_compare.
  destruct (Z.compare_spec (begin A) (begin B));
    [destruct (Z.compare_spec (end_ A) (end_ B)) | |];
    split; intros; try discriminate; try reflexivity; lia.
Qed.

Lemma range_compare_Eq (A B : Interval) :
  range_compare A B = Eq <-> begin A = begin B /\ end_ A = end_ B.
Proof.
  unfold range_compare.
  destruct (Z.compare_spec (begin A) (begin B));
    [destruct (Z.compare_spec (end_ A) (end_ B)) | |];
    split; intros; try discriminate; try reflexivity; lia.
Qed.

Lemma payload_compare_refl (a : pyval) : payload_compare a a = Some Eq.
Proof.
  unfold payload_compare.
  now rewrite (proj2 (py_eq_true_iff a a) eq_refl).
Qed.

(** X14.  [__cmp__] orders by begin first and by end second whatever the
    payloads; equal Intervals compare as 0, and [A < B] never holds when
    [A] begins after [B]. *)
Theorem __cmp___by_range (A B : Interval) :
  (begin A < begin B -> __cmp__ A (Ival B) = Ok (-1)) /\
  (begin A = begin B -> end_ A < end_ B -> __cmp__ A (Ival B) = Ok (-1)) /\
  (__eq__ A (Ival B) = Return true -> __cmp__ A (Ival B) = Ok 0) /\
  (__lt__ A (Ival B) = Ok true -> begin A <= begin B).
Proof.
  unfold __lt__. rewrite __cmp___interval. unfold three_way_spec.
  repeat split.
  - intros H. now rewrite (proj2 (range_compare_Lt A B)) by lia.
  - intros H1 H2. now rewrite (proj2 (range_compare_Lt A B)) by lia.
  - intros H. apply __eq___iff in H. subst B.
    rewrite (proj2 (range_compare_Eq A A)) by auto.
    now rewrite payload_compare_refl.
  - simpl. intros H. injection H as H.
    destruct (range_compare A B) eqn:E.
    + apply range_compare_Eq in E. lia.
    + apply range_compare_Lt in E. lia.
    + discriminate.
Qed.

Lemma __cmp___by_range_witness :
  __cmp__ (mkInterval 1 9 (PyStr "z")) (Ival (mkInterval 2 3 PyNone)) = Ok (-1).
Proof.
  apply (proj1 (__cmp___by_range (mkInterval 1 9 (PyStr "z"))
                  (mkInterval 2 3 PyNone))).
  reflexivity.
Defined.

(** X16.  Against a plain point [__cmp__] never raises and never returns 0:
    the interval sorts before the point exactly when it begins before it. *)
Theorem __cmp___point_spec (A : Interval) (p : Z) :
  exists c,
    __cmp__ A (Point p) = Ok c /\
    (c = -1 \/ c = 1) /\
    (c = -1 <-> begin A < p) /\
    __lt__ A (Point p) = Ok (begin A <? p) /\
    __gt__ A (Point p) = Ok (p <=? begin A).
Proof.
  unfold __lt__, __gt__. rewrite __cmp___point. simpl.
  destruct (begin A <? p) eqn:E; eexists;
    repeat split; try reflexivity; try (f_equal; lia); try lia; auto.
Qed.

Lemma three_way_spec_order (A B : Interval) :
  three_way_spec A B =
    sign (match range_compare A B with
          | Eq => payload_order (data A) (data B)
          | c => c
          end).
Proof.
  unfold three_way_spec, payload_order.
  destruct (range_compare A B); try reflexivity.
  now destruct (payload_compare (data A) (data B)).
Qed.

Lemma string_compare_lt_trans (s t u : string) :
  String.compare s t = Lt -> String.compare t u = Lt -> String.compare s u = Lt.
Proof.
  revert t u. induction s as [| a s IH]; intros [| b t] [| c u]; simpl;
    try discriminate; try reflexivity.
  unfold Ascii.compare.
  destruct (N.compare_spec (N_of_ascii a) (N_of_ascii b)) as [E1 | L1 | G1];
    try discriminate;
    destruct (N.compare_spec (N_of_ascii b) (N_of_ascii c)) as [E2 | L2 | G2];
    try discriminate; intros H1 H2.
  - rewrite E1, E2, N.compare_refl. now apply (IH t u).
  - now rewrite (proj2 (N.compare_lt_iff _ _)) by lia.
  - now rewrite (proj2 (N.compare_lt_iff _ _)) by lia.
  - now rewrite (proj2 (N.compare_lt_iff _ _)) by lia.
Qed.

Lemma payload_order_Eq_flat (a b : pyval) :
  flat a = true -> flat b = true -> (payload_order a b = Eq <-> a = b).
Proof.
  unfold payload_order, payload_compare.
  destruct a as [| x | s | l], b as [| y | t | m]; simpl;
    try discriminate; intros _ _;
    try (split; [discriminate | congruence]).
  - tauto.
  - destruct (Z.eqb_spec x y) as [-> | Hne]; [tauto |].
    destruct (x <? y); split; (discriminate || congruence).
  - destruct (String.eqb_spec s t) as [-> | Hne]; [tauto |].
    destruct (String.ltb s t); split; (discriminate || congruence).
Qed.

Lemma payload_order_Lt_trans_flat (a b c : pyval) :
  flat a = true -> flat b = true -> flat c = true ->
  payload_order a b = Lt -> payload_order b c = Lt -> payload_order a c = Lt.
Proof.
  unfold payload_order, payload_compare.
  destruct a as [| x | s | l], b as [| y | t | m], c as [| z | u | n]; simpl;
    try discriminate; intros _ _ _; try reflexivity; try discriminate.
  - destruct (Z.eqb_spec x y), (Z.eqb_spec y z), (Z.eqb_spec x z);
      try discriminate;
      destruct (Z.ltb_spec x y), (Z.ltb_spec y z), (Z.ltb_spec x z);
      try discriminate; try reflexivity; lia.
  - unfold String.ltb.
    destruct (String.eqb_spec s t) as [-> | Hst]; [discriminate |].
    destruct (String.eqb_spec t u) as [-> | Htu]; [discriminate |].
    destruct (String.compare s t) eqn:E1; try discriminate.
    destruct (String.compare t u) eqn:E2; try discriminate.
    intros _ _. rewrite (string_compare_lt_trans s t u E1 E2).
    destruct (String.eqb_spec s u) as [-> | Hsu]; [| reflexivity].
    rewrite (String.compare_antisym u t), E2 in E1. discriminate.
Qed.

Lemma interval_order_Lt (A B : Interval) :
  interval_order A B = Lt <->
  begin A < begin B \/
  (begin A = begin B /\ end_ A < end_ B) \/
  (begin A = begin B /\ end_ A = end_ B /\
   payload_order (data A) (data B) = Lt).
Proof.
  unfold interval_order, range_compare.
  destruct (Z.compare_spec (begin A) (begin B));
    [destruct (Z.compare_spec (end_ A) (end_ B)) | |];
    split; intros; try discriminate; try reflexivity;
    intuition (try lia; try discriminate).
Qed.

Lemma interval_order_Eq (A B : Interval) :
  interval_order A B = Eq <->
  begin A = begin B /\ end_ A = end_ B /\ payload_order (data A) (data B) = Eq.
Proof.
  unfold interval_order, range_compare.
  destruct (Z.compare_spec (begin A) (begin B));
    [destruct (Z.compare_spec (end_ A) (end_ B)) | |];
    split; intros; try discriminate;
    intuition (try lia; try discriminate).
Qed.

Lemma sign_zero (c : comparison) : sign c = 0 <-> c = Eq.
Proof. destruct c; simpl; split; (discriminate || reflexivity || lia). Qed.

Lemma sign_negative (c : comparison) : (sign c <? 0) = true <-> c = Lt.
Proof. destruct c; simpl; split; (discriminate || reflexivity). Qed.

(** X15.  On intervals whose payloads are [None], integers or strings,
    [__cmp__] is a total order: it returns 0 only on equal intervals and
    [<] is transitive.  With list payloads it returns 0 on unequal intervals,
    and the intervals it reports as tied need not be tied with each other. *)
Theorem __cmp___total_order_flat (A B C : Interval) :
  flat (data A) = true -> flat (data B) = true -> flat (data C) = true ->
  (__cmp__ A (Ival B) = Ok 0 <-> A = B) /\
  (__lt__ A (Ival B) = Ok true -> __lt__ B (Ival C) = Ok true ->
   __lt__ A (Ival C) = Ok true) /\
  (let L := fun v => mkInterval 0 1 (PyList [v]) in
   __cmp__ (L (PyInt 1)) (Ival (L (PyStr "a"))) = Ok 0 /\
   __cmp__ (L (PyStr "a")) (Ival (L (PyInt 2))) = Ok 0 /\
   __cmp__ (L (PyInt 1)) (Ival (L (PyInt 2))) = Ok (-1)).
Proof.
  intros HA HB HC. unfold __lt__.
  rewrite !__cmp___interval, !three_way_spec_order.
  fold (interval_order A B) (interval_order B C) (interval_order A C).
  split; [| split].
  - split.
    + intros H. injection H as H. apply sign_zero, interval_order_Eq in H.
      destruct H as [Hb [He Hd]].
      apply payload_order_Eq_flat in Hd; try assumption.
      destruct A, B; simpl in *. congruence.
    + intros <-. f_equal. apply sign_zero, interval_order_Eq.
      repeat split. now apply payload_order_Eq_flat.
  - simpl. intros H1 H2. injection H1 as H1. injection H2 as H2.
    apply sign_negative, interval_order_Lt in H1, H2.
    f_equal. apply sign_negative, interval_order_Lt.
    destruct H1 as [H1 | [H1 | [Hb1 [He1 Hd1]]]];
      destruct H2 as [H2 | [H2 | [Hb2 [He2 Hd2]]]]; try lia.
    right. right. repeat split; try lia.
    now apply (payload_order_Lt_trans_flat (data A) (data B) (data C)).
  - repeat split.
Qed.

Lemma __cmp___total_order_flat_witness :
  __lt__ (mkInterval 1 3 PyNone) (Ival (mkInterval 1 3 (PyStr "z"))) = Ok true.
Proof.
  apply (proj1 (proj2 (__cmp___total_order_flat
                         (mkInterval 1 3 PyNone)
                         (mkInterval 1 3 (PyInt 7))
                         (mkInterval 1 3 (PyStr "z"))
                         eq_refl eq_refl eq_refl)));
    reflexivity.
Defined.

(** ** Rebuilding an interval *)

(** X17.  The constructor applied to the fields that [__reduce__] returns
    gives the Interval back: the payload field is left out exactly when the
    payload is [None], which the constructor's default restores.  [copy]
    returns an equal Interval. *)
Theorem reduce_round_trip (A : Interval) :
  Interval_of_fields (__reduce__ A) = Some A /\
  (List.length (__reduce__ A) = 2%nat <-> data A = PyNone) /\
  copy A = A /\
  __eq__ (copy A) (Ival A) = Return true.
Proof.
  split; [apply Interval_of_get_fields | split; [| split]].
  - unfold __reduce__, _get_fields.
    destruct (data A); simpl; split; (discriminate || reflexivity).
  - apply copy_eq.
  - rewrite copy_eq. now apply __eq___iff.
Qed.

Lemma eval_call_repr (A : Interval) : eval_call (__repr__ A) = Some A.
Proof.
  unfold eval_call. now rewrite eval_args_repr, Interval_of_get_fields.
Qed.

(** X18.  Intervals with the same representation are the same Interval:
    [__repr__] loses nothing of begin, end and payload. *)
Theorem __repr___injective (A B : Interval) :
  __repr__ A = __repr__ B -> A = B.
Proof.
  intros H. pose proof (eval_call_repr A) as HA.
  rewrite H, eval_call_repr in HA. congruence.
Qed.

Lemma __repr___injective_witness :
  mkInterval 1 5 (PyStr "a") = mkInterval 1 5 (PyStr "a").
Proof.
  apply (__repr___injective (mkInterval 1 5 (PyStr "a"))
           (mkInterval 1 5 (PyStr "a"))).
  reflexivity.
Defined.

(** ** Containment carries points and overlaps *)

(** X19.  When [A] contains [B], every point of [B] is a point of [A], and
    every interval that [B] overlaps, [A] overlaps. *)
Theorem contains_interval_monotone (A B C : Interval) (p : Z) :
  contains_interval A B = true ->
  (contains_point B (Point p) = Ok true -> contains_point A (Point p) = Ok true) /\
  (overlaps B (Q1 (Ival C)) = Ok true -> overlaps A (Q1 (Ival C)) = Ok true).
Proof.
  rewrite !overlaps_overlapping.
  unfold contains_interval, contains_point, overlapping. intros Hc.
  split; intros H; injection H as H; f_equal; lia.
Qed.

Lemma contains_interval_monotone_witness :
  contains_point (mkInterval 0 10 PyNone) (Point 3) = Ok true.
Proof.
  apply (proj1 (contains_interval_monotone (mkInterval 0 10 PyNone)
                  (mkInterval 2 6 PyNone) (mkInterval 5 8 PyNone) 3 eq_refl)).
  reflexivity.
Defined.
